(** * The renderer container of TypeDoc (src/lib/renderer.ts)

    A shallow embedding of [RendererContainer] and of the [Renderer]
    interface it dispatches to, followed by the properties of the registry
    (registration, lookup, default selection) and of the render pass
    (fallback to the default renderer, what happens to failures). *)

From Stdlib Require Import List String Arith Bool Lia Permutation.
Import ListNotations.
Local Open Scope string_scope.
Local Open Scope list_scope.

(** ** JavaScript values the code handles *)

(** An error object; its [message] is a string. *)
Inductive Error : Type :=
| AssertionError (msg : string)
| TypeError (msg : string)
| RenderError (msg : string).

Definition message (e : Error) : string :=
  match e with
  | AssertionError msg => msg
  | TypeError msg => msg
  | RenderError msg => msg
  end.

(** What a [throw] carries and what a promise is rejected with: any value.
    The code only ever reads the [message] property of such a value, so
    three kinds are told apart: [null] and [undefined], on which reading a
    property throws; error objects; and every other value (a string, a
    number, an object without that property), whose [message] is
    [undefined]. *)
Inductive Value : Type :=
| Null
| Undefined
| Obj (e : Error)
| Plain (text : string).

(** A promise as the event loop sees it: it never settles, or it settles at
    some tick, fulfilled or rejected.  The tick only orders the reactions of
    different promises; no renderer is assumed to settle before another.
    Tick 0 is the synchronous part of the call of [render]. *)
Inductive Settlement : Type :=
| Fulfilled
| Rejected (reason : Value).

Inductive Promise : Type :=
| Pending
| Settled (tick : nat) (outcome : Settlement).

(** How a call ends: it returns or it throws. *)
Inductive Completion (A : Type) : Type :=
| Normal (a : A)
| Throw (e : Value).
Arguments Normal {A} a.
Arguments Throw {A} e.

(** ** [Map<string, V>]: insertion ordered, one entry per key *)

Module JsMap.
Section WithValues.
Context {V : Type}.

Definition t := list (string * V).

Definition empty : t := [].

Fixpoint get (k : string) (m : t) : option V :=
  match m with
  | [] => None
  | (k', v) :: m' => if String.eqb k k' then Some v else get k m'
  end.

Definition has (k : string) (m : t) : bool :=
  match get k m with
  | Some _ => true
  | None => false
  end.

(** [set] overwrites in place when the key exists and appends otherwise. *)
Fixpoint set (k : string) (v : V) (m : t) : t :=
  match m with
  | [] => [(k, v)]
  | (k', v') :: m' =>
      if String.eqb k k' then (k', v) :: m' else (k', v') :: set k v m'
  end.

Definition keys (m : t) : list string := map fst m.

Definition values (m : t) : list V := map snd m.
End WithValues.
Arguments t : clear implicits.
End JsMap.

(** ** The [Renderer] interface *)

Module Renderer.
(** A renderer is an object: the container stores and compares references
    to it, so [t] is the object's identity and [same] is [===]. *)
Definition t := nat.

Definition same (a b : t) : bool := Nat.eqb a b.

(** What the objects behind the references do when the container calls
    them during one render pass.  [isEnabled()] only answers.  A call of
    [render(project)] returns a promise or, when the method is not an
    [async] one and fails before it has made its promise, throws.  What the
    renderer writes is its own business and is not recorded. *)
Record Env (ProjectReflection : Type) : Type := {
  isEnabled : t -> bool;
  render : t -> ProjectReflection -> Completion Promise
}.
Arguments isEnabled {ProjectReflection} _ _.
Arguments render {ProjectReflection} _ _ _.
End Renderer.

(** ** State and the monad of the container's methods *)

(** The two private fields of the container, then what the host observes:
    the arguments handed to [app.logger.error] ([None] is [undefined]) and
    the renderers whose [render] was called, both oldest first. *)
Record State : Type := {
  defaultRenderer : Renderer.t;
  renderers : JsMap.t Renderer.t;
  logged : list (option string);
  invoked : list Renderer.t
}.

Definition with_defaultRenderer (r : Renderer.t) (s : State) : State :=
  {| defaultRenderer := r; renderers := renderers s;
     logged := logged s; invoked := invoked s |}.

Definition with_renderers (m : JsMap.t Renderer.t) (s : State) : State :=
  {| defaultRenderer := defaultRenderer s; renderers := m;
     logged := logged s; invoked := invoked s |}.

Definition with_logged (l : list (option string)) (s : State) : State :=
  {| defaultRenderer := defaultRenderer s; renderers := renderers s;
     logged := l; invoked := invoked s |}.

Definition with_invoked (l : list Renderer.t) (s : State) : State :=
  {| defaultRenderer := defaultRenderer s; renderers := renderers s;
     logged := logged s; invoked := l |}.

(** A method body: it runs from a state and ends normally or by throwing;
    either way the state it leaves is the one reached at that point. *)
Definition M (A : Type) : Type := State -> Completion A * State.

Definition ret {A} (a : A) : M A := fun s => (Normal a, s).

Definition throw {A} (e : Value) : M A := fun s => (Throw e, s).

Definition bind {A B} (c : M A) (k : A -> M B) : M B :=
  fun s =>
    match c s with
    | (Normal a, s') => k a s'
    | (Throw e, s') => (Throw e, s')
    end.

Definition gets {A} (f : State -> A) : M A := fun s => (Normal (f s), s).

Definition modify (f : State -> State) : M unit := fun s => (Normal tt, f s).

Notation "x <- c1 ;; c2" := (bind c1 (fun x => c2))
  (at level 61, c1 at next level, right associativity).
Notation "c1 ;; c2" := (bind c1 (fun _ => c2))
  (at level 61, right associativity).

(** [ok(value, message)] of the assert module. *)
Definition ok (value : bool) (msg : string) : M unit :=
  if value then ret tt else throw (Obj (AssertionError msg)).

(** [this.app.logger.error(msg)]: the host's logger takes the argument. *)
Definition logger_error (msg : option string) : M unit :=
  modify (fun s => with_logged (logged s ++ [msg]) s).

(** What reading a property of [null] or of [undefined] throws. *)
Definition null_read : Value :=
  Obj (TypeError "Cannot read properties of null (reading 'message')").

Definition undefined_read : Value :=
  Obj (TypeError "Cannot read properties of undefined (reading 'message')").

(** The property read [error.message]. *)
Definition read_message (error : Value) : M (option string) :=
  match error with
  | Null => throw null_read
  | Undefined => throw undefined_read
  | Obj e => ret (Some (message e))
  | Plain _ => ret None
  end.

(** The handler of line 76-78:
    [(error) => { this.app.logger.error(error.message); }]. *)
Definition report (error : Value) : M unit :=
  msg <- read_message error ;; logger_error msg.

(** ** Settling a batch of promises *)

(** The rejections among [ps], each with the tick at which it happens. *)
Definition rejections (ps : list Promise) : list (nat * Value) :=
  flat_map (fun p => match p with
                     | Settled t (Rejected v) => [(t, v)]
                     | _ => []
                     end) ps.

Fixpoint insert_by_tick (x : nat * Value) (l : list (nat * Value))
  : list (nat * Value) :=
  match l with
  | [] => [x]
  | y :: l' =>
      if Nat.ltb (fst x) (fst y) then x :: y :: l' else y :: insert_by_tick x l'
  end.

(** Reactions run in the order in which their promises settle; promises
    settling at the same tick react in the order of their creation. *)
Definition sort_by_tick (l : list (nat * Value)) : list (nat * Value) :=
  fold_right insert_by_tick [] (rev l).

(** Runs the handler attached by [.catch(h)] on each rejection in turn and
    returns the rejections of the derived promises: those whose handler
    threw. *)
Fixpoint run_handlers (h : Value -> M unit) (rs : list (nat * Value))
  : State -> list (nat * Value) * State :=
  fun s =>
    match rs with
    | [] => ([], s)
    | (t, e) :: rs' =>
        match h e s with
        | (Normal _, s') => run_handlers h rs' s'
        | (Throw e', s') =>
            let (thrown, s'') := run_handlers h rs' s' in
            ((t, e') :: thrown, s'')
        end
    end.

Definition is_settled (p : Promise) : bool :=
  match p with
  | Pending => false
  | Settled _ _ => true
  end.

Definition tick_of (p : Promise) : nat :=
  match p with
  | Pending => 0
  | Settled t _ => t
  end.

(** [Promise.all] over the promises derived from [ps] by [.catch]: it
    rejects with the first derived rejection, and is otherwise fulfilled
    once every one of [ps] has settled. *)
Definition Promise_all (thrown : list (nat * Value)) (ps : list Promise)
  : Promise :=
  match thrown with
  | (t, e) :: _ => Settled t (Rejected e)
  | [] =>
      if forallb is_settled ps
      then Settled (fold_right Nat.max 0 (map tick_of ps)) Fulfilled
      else Pending
  end.

(** ** [RendererContainer] *)

Section Container.
(** The documentation model, never inspected here. *)
Variable ProjectReflection : Type.

(** [renderer.name]: a read-only property of each renderer object. *)
Variable name : Renderer.t -> string.

(** [addRenderer(renderer)], lines 29-35. *)
Definition addRenderer (renderer : Renderer.t) : M unit :=
  present <- gets (fun s => JsMap.has (name renderer) (renderers s)) ;;
  ok (negb present)
     ("Renderer names must be unique, duplicate: " ++ name renderer)%string ;;
  modify (fun s =>
            with_renderers
              (JsMap.set (name renderer) renderer (renderers s)) s).

(** [getRenderer(name)], lines 47-49; [None] is [undefined]. *)
Definition getRenderer (n : string) : M (option Renderer.t) :=
  gets (fun s => JsMap.get n (renderers s)).

(** [found === renderer] where [found] may be [undefined]. *)
Definition strict_eq (found : option Renderer.t) (renderer : Renderer.t)
  : bool :=
  match found with
  | Some r => Renderer.same r renderer
  | None => false
  end.

(** [setDefault(renderer)], lines 56-62. *)
Definition setDefault (renderer : Renderer.t) : M unit :=
  found <- gets (fun s => JsMap.get (name renderer) (renderers s)) ;;
  ok (strict_eq found renderer)
     "A renderer can only be set as the default if it has been added to the container" ;;
  modify (with_defaultRenderer renderer).

(** The state after the field initialisers and line 20, where [html] is
    the object made by [new HtmlRenderer(app)]. *)
Definition fresh (html : Renderer.t) : State :=
  {| defaultRenderer := html; renderers := JsMap.empty;
     logged := []; invoked := [] |}.

(** The constructor, lines 19-23; [json] is the object made by
    [new Serializer(app)]. *)
Definition constructor (html json : Renderer.t) : Completion unit * State :=
  (addRenderer html ;; addRenderer json) (fresh html).

(** The call [gen.render(project)] made by the callback of [enabled.map]:
    the renderer is entered, and the call returns its promise or throws. *)
Definition call_render (env : Renderer.Env ProjectReflection)
           (project : ProjectReflection) (gen : Renderer.t) : M Promise :=
  fun s =>
    (Renderer.render env gen project, with_invoked (invoked s ++ [gen]) s).

(** [enabled.map((gen) => gen.render(project).catch(...))], lines 75-79:
    the calls are made in order; a call that throws ends the [map], and the
    renderers after it are not called.  The result is the promises obtained
    so far, each with its handler attached, and the value thrown, if any. *)
Fixpoint launch (env : Renderer.Env ProjectReflection)
         (project : ProjectReflection) (gens : list Renderer.t)
  : State -> list Promise * option Value * State :=
  fun s =>
    match gens with
    | [] => ([], None, s)
    | gen :: rest =>
        match call_render env project gen s with
        | (Normal p, s') =>
            let '(ps, escaped, s'') := launch env project rest s' in
            (p :: ps, escaped, s'')
        | (Throw v, s') => ([], Some v, s')
        end
    end.

(** The renderers that report themselves enabled, line 65-67. *)
Definition eligible (env : Renderer.Env ProjectReflection) (s : State)
  : list Renderer.t :=
  filter (Renderer.isEnabled env) (JsMap.values (renderers s)).

(** [render(project)], lines 64-81.  The method is [async]: it returns a
    promise and never throws.  A value thrown inside [enabled.map] rejects
    that promise at once; otherwise the promise is the one of
    [Promise.all].  Either way the handlers attached so far run when their
    promises are rejected, and the state returned is the one they leave. *)
Definition render (env : Renderer.Env ProjectReflection)
           (project : ProjectReflection) : M Promise :=
  fun s =>
    let enabled := eligible env s in
    let enabled := if Nat.eqb (List.length enabled) 0
                   then enabled ++ [defaultRenderer s]
                   else enabled in
    let '(promises, escaped, s1) := launch env project enabled s in
    let (thrown, s2) :=
      run_handlers report (sort_by_tick (rejections promises)) s1 in
    (Normal match escaped with
            | Some v => Settled 0 (Rejected v)
            | None => Promise_all thrown promises
            end,
     s2).

(** *** Reachable states *)

Inductive Call : Type :=
| CallAddRenderer (renderer : Renderer.t)
| CallGetRenderer (n : string)
| CallSetDefault (renderer : Renderer.t)
| CallRender (env : Renderer.Env ProjectReflection)
             (project : ProjectReflection).

(** The state a call leaves, whether it returned or threw. *)
Definition exec (c : Call) (s : State) : State :=
  match c with
  | CallAddRenderer renderer => snd (addRenderer renderer s)
  | CallGetRenderer n => snd (getRenderer n s)
  | CallSetDefault renderer => snd (setDefault renderer s)
  | CallRender env project => snd (render env project s)
  end.

(** The state a sequence of calls leaves, first call first. *)
Fixpoint run (cs : list Call) (s : State) : State :=
  match cs with
  | [] => s
  | c :: cs' => run cs' (exec c s)
  end.

(** A container exists once its constructor has returned; from then on
    its state changes only through its methods. *)
Inductive reachable : State -> Prop :=
| reachable_new html json s :
    constructor html json = (Normal tt, s) -> reachable s
| reachable_call c s :
    reachable s -> reachable (exec c s).

(** *** Vocabulary of the specification *)

Definition DuplicateRendererName (renderer : Renderer.t) : Value :=
  Obj (AssertionError
         ("Renderer names must be unique, duplicate: "
            ++ name renderer)%string).

Definition UnregisteredDefault : Value :=
  Obj (AssertionError
         "A renderer can only be set as the default if it has been added to the container").

(** [r] is one of the values of the map. *)
Definition registered (s : State) (r : Renderer.t) : Prop :=
  In r (JsMap.values (renderers s)).

(** I2: the default renderer is the instance stored under its own name. *)
Definition I2 (s : State) : Prop :=
  JsMap.get (name (defaultRenderer s)) (renderers s)
  = Some (defaultRenderer s).

(** Every entry is filed under the name of the renderer it holds. *)
Definition keyed_by_name (m : JsMap.t Renderer.t) : Prop :=
  forall k r, In (k, r) m -> k = name r.

(** I1 with it: the keys are distinct and name the renderers they hold. *)
Definition well_keyed (m : JsMap.t Renderer.t) : Prop :=
  NoDup (JsMap.keys m) /\ keyed_by_name m.

(** The renderers a pass sets out to call: the eligible ones, or the
    default renderer alone when there is none (lines 65-72). *)
Definition selected (env : Renderer.Env ProjectReflection) (s : State)
  : list Renderer.t :=
  match eligible env s with
  | [] => [defaultRenderer s]
  | _ => eligible env s
  end.

(** The call of [gen]'s [render] returns a promise. *)
Definition returns_promise (env : Renderer.Env ProjectReflection)
           (project : ProjectReflection) (gen : Renderer.t) : Prop :=
  exists p, Renderer.render env gen project = Normal p.

(** The value [gen]'s render operation rejects its promise with, if it
    does. *)
Definition failure (env : Renderer.Env ProjectReflection)
           (project : ProjectReflection) (gen : Renderer.t)
  : option Value :=
  match Renderer.render env gen project with
  | Normal (Settled _ (Rejected v)) => Some v
  | _ => None
  end.

(** [gen] fails, if at all, the way the interface describes: through the
    promise it returned, and with a value that is neither [null] nor
    [undefined]. *)
Definition orderly (env : Renderer.Env ProjectReflection)
           (project : ProjectReflection) (gen : Renderer.t) : Prop :=
  returns_promise env project gen
  /\ failure env project gen <> Some Null
  /\ failure env project gen <> Some Undefined.

(** What the handler passes to the logger for a reason that has
    properties. *)
Definition message_of (v : Value) : option string :=
  match v with
  | Obj e => Some (message e)
  | _ => None
  end.

(** The messages of the failures among [gens], in the order of [gens]. *)
Definition failure_messages (env : Renderer.Env ProjectReflection)
           (project : ProjectReflection) (gens : list Renderer.t)
  : list (option string) :=
  flat_map (fun gen => match failure env project gen with
                       | Some v => [message_of v]
                       | None => []
                       end) gens.

(** [gen]'s render operation comes to an end, well or badly. *)
Definition settles (env : Renderer.Env ProjectReflection)
           (project : ProjectReflection) (gen : Renderer.t) : Prop :=
  exists t o, Renderer.render env gen project = Normal (Settled t o).

(** *** [launch] and the handlers, computed without the state *)

(** The renderers called: those up to and including the first whose call
    throws. *)
Fixpoint attempted (env : Renderer.Env ProjectReflection)
         (project : ProjectReflection) (gens : list Renderer.t)
  : list Renderer.t :=
  match gens with
  | [] => []
  | gen :: rest =>
      match Renderer.render env gen project with
      | Normal _ => gen :: attempted env project rest
      | Throw _ => [gen]
      end
  end.

(** The promises obtained before a call throws. *)
Fixpoint started (env : Renderer.Env ProjectReflection)
         (project : ProjectReflection) (gens : list Renderer.t)
  : list Promise :=
  match gens with
  | [] => []
  | gen :: rest =>
      match Renderer.render env gen project with
      | Normal p => p :: started env project rest
      | Throw _ => []
      end
  end.

(** The value thrown by the first call that throws. *)
Fixpoint escaped (env : Renderer.Env ProjectReflection)
         (project : ProjectReflection) (gens : list Renderer.t)
  : option Value :=
  match gens with
  | [] => None
  | gen :: rest =>
      match Renderer.render env gen project with
      | Normal _ => escaped env project rest
      | Throw v => Some v
      end
  end.

(** What [report] logs for each rejection of a list. *)
Definition reported (rs : list (nat * Value)) : list (option string) :=
  flat_map (fun x => match snd x with
                     | Null | Undefined => []
                     | v => [message_of v]
                     end) rs.

(** The rejections on which [report] itself throws. *)
Definition rethrown (rs : list (nat * Value)) : list (nat * Value) :=
  flat_map (fun x => match snd x with
                     | Null => [(fst x, null_read)]
                     | Undefined => [(fst x, undefined_read)]
                     | _ => []
                     end) rs.
End Container.

Arguments call_render {ProjectReflection} env project gen _.
Arguments launch {ProjectReflection} env project gens _.
Arguments eligible {ProjectReflection} env s.
Arguments render {ProjectReflection} env project _.
Arguments CallAddRenderer {ProjectReflection} renderer.
Arguments CallGetRenderer {ProjectReflection} n.
Arguments CallSetDefault {ProjectReflection} renderer.
Arguments CallRender {ProjectReflection} env project.
Arguments exec {ProjectReflection} name c s.
Arguments run {ProjectReflection} name cs s.
Arguments selected {ProjectReflection} env s.
Arguments returns_promise {ProjectReflection} env project gen.
Arguments failure {ProjectReflection} env project gen.
Arguments orderly {ProjectReflection} env project gen.
Arguments failure_messages {ProjectReflection} env project gens.
Arguments settles {ProjectReflection} env project gen.
Arguments attempted {ProjectReflection} env project gens.
Arguments started {ProjectReflection} env project gens.
Arguments escaped {ProjectReflection} env project gens.

(** ** A concrete world: the built-ins, one plugin and a look-alike *)

Module Scenario.
Definition html : Renderer.t := 0.
Definition json : Renderer.t := 1.
Definition markdown : Renderer.t := 2.
(** A second object that also calls itself "html". *)
Definition lookalike : Renderer.t := 3.

Definition name (r : Renderer.t) : string :=
  match r with
  | 0 => "html"
  | 1 => "json"
  | 2 => "markdown"
  | _ => "html"
  end.

(** No output option set; every renderer would succeed. *)
Definition unconfigured : Renderer.Env unit :=
  {| Renderer.isEnabled := fun _ => false;
     Renderer.render := fun _ _ => Normal (Settled 1 Fulfilled) |}.

(** Only "markdown" is enabled. *)
Definition markdown_only : Renderer.Env unit :=
  {| Renderer.isEnabled := fun r => Nat.eqb r markdown;
     Renderer.render := fun _ _ => Normal (Settled 1 Fulfilled) |}.

(** All three enabled; "json" fails first, "html" fails later, "markdown"
    succeeds in between. *)
Definition all_enabled : Renderer.Env unit :=
  {| Renderer.isEnabled := fun _ => true;
     Renderer.render := fun r _ =>
       match r with
       | 0 => Normal (Settled 7 (Rejected (Obj (RenderError "html: disk full"))))
       | 1 => Normal (Settled 2
                        (Rejected (Obj (RenderError "json: cannot serialize"))))
       | _ => Normal (Settled 5 Fulfilled)
       end |}.

(** All three enabled; the [render] of "json" is not an [async] method and
    throws before it has made a promise. *)
Definition json_throws : Renderer.Env unit :=
  {| Renderer.isEnabled := fun _ => true;
     Renderer.render := fun r _ =>
       match r with
       | 1 => Throw (Obj (RenderError "json: cannot serialize"))
       | _ => Normal (Settled 5 Fulfilled)
       end |}.

(** All three enabled; "json" rejects its promise with [null]. *)
Definition json_rejects_null : Renderer.Env unit :=
  {| Renderer.isEnabled := fun _ => true;
     Renderer.render := fun r _ =>
       match r with
       | 1 => Normal (Settled 2 (Rejected Null))
       | _ => Normal (Settled 5 Fulfilled)
       end |}.

(** All three enabled; "json" rejects its promise with a string. *)
Definition json_rejects_string : Renderer.Env unit :=
  {| Renderer.isEnabled := fun _ => true;
     Renderer.render := fun r _ =>
       match r with
       | 1 => Normal (Settled 2 (Rejected (Plain "cannot serialize")))
       | _ => Normal (Settled 5 Fulfilled)
       end |}.

(** Only "markdown" is enabled, and it never finishes. *)
Definition markdown_hangs : Renderer.Env unit :=
  {| Renderer.isEnabled := fun r => Nat.eqb r markdown;
     Renderer.render := fun _ _ => Normal Pending |}.

(** The container right after construction. *)
Definition seeded : State := snd (constructor name html json).

(** The container after a plugin registered "markdown". *)
Definition extended : State := snd (addRenderer name markdown seeded).
End Scenario.
(** * Properties *)

(** ** Facts about [JsMap] *)

Section JsMapFacts.
Context {V : Type}.
Implicit Types (m : JsMap.t V) (k : string) (v : V).

Lemma get_set_same k v m : JsMap.get k (JsMap.set k v m) = Some v.
Proof.
  induction m as [|[k' v'] m IH]; simpl.
  - now rewrite String.eqb_refl.
  - destruct (String.eqb k k') eqn:E; simpl; rewrite E; auto.
Qed.

Lemma get_set_other k k' v m :
  k' <> k -> JsMap.get k' (JsMap.set k v m) = JsMap.get k' m.
Proof.
  intros Hne. induction m as [|[k0 v0] m IH]; simpl.
  - destruct (String.eqb_spec k' k); [contradiction | reflexivity].
  - destruct (String.eqb_spec k k0) as [->|Hk]; simpl.
    + destruct (String.eqb_spec k' k0); [contradiction | reflexivity].
    + now rewrite IH.
Qed.

Lemma get_None_keys k m :
  JsMap.get k m = None <-> ~ In k (JsMap.keys m).
Proof.
  induction m as [|[k' v'] m IH]; simpl.
  - tauto.
  - destruct (String.eqb_spec k k') as [->|Hk].
    + split; [discriminate | intros H; exfalso; apply H; now left].
    + rewrite IH. split; [intros H [E|H']; [congruence | tauto] | tauto].
Qed.

Lemma has_true_keys k m :
  JsMap.has k m = true <-> In k (JsMap.keys m).
Proof.
  unfold JsMap.has. pose proof (get_None_keys k m) as H.
  destruct (JsMap.get k m) eqn:E.
  - split; [intros _ | reflexivity].
    destruct (in_dec string_dec k (JsMap.keys m)) as [Hin|Hn]; [exact Hin|].
    apply H in Hn; discriminate.
  - split; [discriminate | intros Hin; exfalso; now apply H].
Qed.

Lemma has_false_get k m : JsMap.has k m = false <-> JsMap.get k m = None.
Proof.
  unfold JsMap.has. destruct (JsMap.get k m); split; congruence.
Qed.

Lemma set_fresh k v m :
  JsMap.get k m = None -> JsMap.set k v m = m ++ [(k, v)].
Proof.
  induction m as [|[k' v'] m IH]; simpl; [reflexivity|].
  destruct (String.eqb k k'); [discriminate|].
  intros H. now rewrite IH.
Qed.

Lemma get_Some_In k v m : JsMap.get k m = Some v -> In (k, v) m.
Proof.
  induction m as [|[k' v'] m IH]; simpl; [discriminate|].
  destruct (String.eqb_spec k k') as [->|Hk].
  - intros [= ->]. now left.
  - intros H. right. auto.
Qed.

Lemma In_get k v m :
  NoDup (JsMap.keys m) -> In (k, v) m -> JsMap.get k m = Some v.
Proof.
  induction m as [|[k' v'] m IH]; simpl; [tauto|].
  intros Hnd [E|Hin].
  - injection E as -> ->. now rewrite String.eqb_refl.
  - inversion Hnd as [|? ? Hnotin Hnd']; subst.
    destruct (String.eqb_spec k k') as [->|Hk].
    + exfalso. apply Hnotin. change (In (fst (k', v)) (map fst m)).
      now apply in_map.
    + auto.
Qed.

Lemma keys_app m1 m2 : JsMap.keys (m1 ++ m2) = JsMap.keys m1 ++ JsMap.keys m2.
Proof. apply map_app. Qed.

Lemma values_app m1 m2 :
  JsMap.values (m1 ++ m2) = JsMap.values m1 ++ JsMap.values m2.
Proof. apply map_app. Qed.

Lemma NoDup_snoc {A} (l : list A) (a : A) :
  NoDup l -> ~ In a l -> NoDup (l ++ [a]).
Proof.
  intros Hnd Hn. induction Hnd as [|x l Hx Hnd IH]; simpl.
  - constructor; [tauto | constructor].
  - constructor.
    + rewrite in_app_iff. simpl. intros [H|[H|[]]]; [tauto|].
      subst. apply Hn. now left.
    + apply IH. intros H. apply Hn. now right.
Qed.
End JsMapFacts.


(** ** How each method runs *)

Lemma with_invoked_nil s : with_invoked (invoked s ++ []) s = s.
Proof. destruct s; unfold with_invoked; simpl. now rewrite app_nil_r. Qed.

Section Runs.
Context {ProjectReflection : Type}.
Variable name : Renderer.t -> string.
Implicit Types (s : State) (r gen : Renderer.t) (n : string).
Implicit Types (env : Renderer.Env ProjectReflection).
Implicit Types (project : ProjectReflection).

Lemma addRenderer_run r s :
  addRenderer name r s =
  if JsMap.has (name r) (renderers s)
  then (Throw (DuplicateRendererName name r), s)
  else (Normal tt,
        with_renderers (JsMap.set (name r) r (renderers s)) s).
Proof.
  unfold addRenderer, bind, gets, ok, modify, DuplicateRendererName.
  destruct (JsMap.has (name r) (renderers s)); reflexivity.
Qed.

Lemma strict_eq_true found r : strict_eq found r = true <-> found = Some r.
Proof.
  destruct found as [r'|]; simpl; [|split; discriminate].
  unfold Renderer.same. rewrite Nat.eqb_eq. split; congruence.
Qed.

Lemma setDefault_run r s :
  setDefault name r s =
  if strict_eq (JsMap.get (name r) (renderers s)) r
  then (Normal tt, with_defaultRenderer r s)
  else (Throw UnregisteredDefault, s).
Proof.
  unfold setDefault, bind, gets, ok, modify, UnregisteredDefault.
  destruct (strict_eq _ r); reflexivity.
Qed.

Lemma launch_run env project gens s :
  launch env project gens s =
  (started env project gens, escaped env project gens,
   with_invoked (invoked s ++ attempted env project gens) s).
Proof.
  revert s. induction gens as [|gen gens IH]; intros s; simpl.
  - now rewrite with_invoked_nil.
  - unfold call_render.
    destruct (Renderer.render env gen project) as [p|v]; [|reflexivity].
    rewrite IH. unfold with_invoked; simpl. now rewrite <- app_assoc.
Qed.

Lemma run_handlers_report rs s :
  run_handlers report rs s =
  (rethrown rs, with_logged (logged s ++ reported rs) s).
Proof.
  revert s. induction rs as [|[t v] rs IH]; intros s; simpl.
  - destruct s; unfold with_logged; simpl. now rewrite app_nil_r.
  - destruct v as [| |e|text]; unfold report, bind; simpl; rewrite IH;
      unfold with_logged; simpl; try reflexivity;
      now rewrite <- app_assoc.
Qed.

Lemma insert_by_tick_perm x l : Permutation (insert_by_tick x l) (x :: l).
Proof.
  induction l as [|y l IH]; simpl; [reflexivity|].
  destruct (Nat.ltb (fst x) (fst y)); [reflexivity|].
  rewrite IH. apply perm_swap.
Qed.

Lemma sort_by_tick_perm l : Permutation (sort_by_tick l) l.
Proof.
  unfold sort_by_tick. rewrite (Permutation_rev l) at 2.
  induction (rev l) as [|x l' IH]; simpl; [reflexivity|].
  rewrite insert_by_tick_perm. now constructor.
Qed.

Lemma selected_run env s :
  (if Nat.eqb (List.length (eligible env s)) 0
   then eligible env s ++ [defaultRenderer s]
   else eligible env s) = selected env s.
Proof. unfold selected. destruct (eligible env s); reflexivity. Qed.

(** One pass, reduced to the renderers called, the promises obtained and
    what the handlers do with the rejections. *)
Lemma render_run env project s :
  let promises := started env project (selected env s) in
  let reactions := sort_by_tick (rejections promises) in
  render env project s =
  (Normal match escaped env project (selected env s) with
          | Some v => Settled 0 (Rejected v)
          | None => Promise_all (rethrown reactions) promises
          end,
   {| defaultRenderer := defaultRenderer s;
      renderers := renderers s;
      logged := logged s ++ reported reactions;
      invoked := invoked s ++ attempted env project (selected env s) |}).
Proof.
  intros promises reactions. unfold render.
  rewrite selected_run, launch_run. fold promises.
  rewrite run_handlers_report. reflexivity.
Qed.

(** *** The calls of one pass *)

Lemma attempted_prefix env project gens :
  exists rest, gens = attempted env project gens ++ rest.
Proof.
  induction gens as [|gen gens [rest IH]]; simpl; [now exists []|].
  destruct (Renderer.render env gen project).
  - exists rest. simpl. now rewrite <- IH.
  - now exists gens.
Qed.

Lemma attempted_nonempty env project gens :
  gens <> [] -> attempted env project gens <> [].
Proof.
  destruct gens as [|gen gens]; [congruence|]. intros _. simpl.
  destruct (Renderer.render env gen project); discriminate.
Qed.

Lemma escaped_None env project gens :
  escaped env project gens = None
  <-> forall gen, In gen gens -> returns_promise env project gen.
Proof.
  unfold returns_promise. induction gens as [|gen gens IH]; simpl.
  - split; [intros _ gen [] | reflexivity].
  - destruct (Renderer.render env gen project) as [p|v] eqn:E.
    + rewrite IH. split.
      * intros H g [<-|Hg]; [eauto | auto].
      * intros H g Hg. apply H. now right.
    + split; [discriminate|]. intros H.
      destruct (H gen (or_introl eq_refl)) as [p Hp]. congruence.
Qed.

Lemma attempted_all env project gens :
  escaped env project gens = None -> attempted env project gens = gens.
Proof.
  induction gens as [|gen gens IH]; simpl; [reflexivity|].
  destruct (Renderer.render env gen project); [|discriminate].
  intros H. now rewrite IH.
Qed.

Lemma started_all env project gens :
  escaped env project gens = None ->
  map Normal (started env project gens)
  = map (fun gen => Renderer.render env gen project) gens.
Proof.
  induction gens as [|gen gens IH]; simpl; [reflexivity|].
  destruct (Renderer.render env gen project) eqn:E; [|discriminate].
  intros H. simpl. now rewrite IH.
Qed.

Lemma started_In env project gens p :
  escaped env project gens = None ->
  In p (started env project gens)
  <-> exists gen, In gen gens /\ Renderer.render env gen project = Normal p.
Proof.
  intros H. pose proof (started_all env project gens H) as Hmap. split.
  - intros Hin. apply (in_map Normal) in Hin. rewrite Hmap in Hin.
    apply in_map_iff in Hin as [gen [Hg Hin]]. eauto.
  - intros [gen [Hin Hg]].
    apply (in_map (fun gen => Renderer.render env gen project)) in Hin.
    rewrite <- Hmap, Hg in Hin.
    apply in_map_iff in Hin as [p' [[= ->] Hin]]. exact Hin.
Qed.

Lemma rejections_In ps t v :
  In (t, v) (rejections ps) <-> In (Settled t (Rejected v)) ps.
Proof.
  unfold rejections. rewrite in_flat_map. split.
  - intros [p [Hp Hin]]. destruct p as [|t' [|v']]; simpl in Hin;
      try contradiction.
    destruct Hin as [[= -> ->]|[]]. exact Hp.
  - intros H. exists (Settled t (Rejected v)). split; [exact H|now left].
Qed.

(** *** What the handlers do *)

Lemma rethrown_nil rs :
  rethrown rs = []
  <-> forall t v, In (t, v) rs -> v <> Null /\ v <> Undefined.
Proof.
  unfold rethrown. induction rs as [|[t v] rs IH]; simpl.
  - split; [intros _ t v [] | reflexivity].
  - split.
    + intros H t' v' [[= <- <-]|Hin].
      * destruct v; simpl in H; try discriminate; split; discriminate.
      * refine (proj1 IH _ t' v' Hin).
        destruct v; simpl in H; try discriminate; exact H.
    + intros H. destruct (H t v (or_introl eq_refl)) as [Hn Hu].
      assert (Hrs : forall t v, In (t, v) rs -> v <> Null /\ v <> Undefined)
        by (intros t' v' Hin; apply (H t' v'); now right).
      pose proof (proj2 IH Hrs) as Hnil.
      destruct v; simpl; try congruence; exact Hnil.
Qed.

Lemma rethrown_perm rs rs' :
  Permutation rs rs' -> rethrown rs = [] -> rethrown rs' = [].
Proof.
  intros Hp H. apply rethrown_nil. intros t v Hin.
  apply (proj1 (rethrown_nil rs) H t v).
  now apply (Permutation_in _ (Permutation_sym Hp)).
Qed.

Lemma reported_perm rs rs' :
  Permutation rs rs' -> Permutation (reported rs) (reported rs').
Proof. intros H. unfold reported. now apply Permutation_flat_map. Qed.

Lemma reported_failures env project gens :
  (forall gen, In gen gens -> orderly env project gen) ->
  reported (rejections (started env project gens))
  = failure_messages env project gens.
Proof.
  unfold failure_messages, orderly, returns_promise, failure.
  induction gens as [|gen gens IH]; intros H; simpl; [reflexivity|].
  destruct (H gen (or_introl eq_refl)) as [[p Hp] [Hn Hu]].
  rewrite Hp in *. simpl.
  rewrite <- IH by (intros g Hg; apply H; now right).
  destruct p as [|t [|v]]; try reflexivity.
  destruct v; simpl; try reflexivity; congruence.
Qed.
End Runs.
(** ** Invariants of the reachable states *)

Section Invariants.
Context {ProjectReflection : Type}.
Variable name : Renderer.t -> string.
Implicit Types (s : State) (r gen : Renderer.t) (n : string).
Implicit Types (c : Call ProjectReflection).

Lemma constructor_run html json :
  constructor name html json =
  if String.eqb (name json) (name html)
  then (Throw (DuplicateRendererName name json),
        with_renderers [(name html, html)] (fresh html))
  else (Normal tt,
        with_renderers [(name html, html); (name json, json)] (fresh html)).
Proof.
  unfold constructor, bind. rewrite addRenderer_run. simpl.
  rewrite addRenderer_run. unfold JsMap.has. simpl.
  destruct (String.eqb (name json) (name html)); reflexivity.
Qed.

Lemma constructor_ok html json s :
  constructor name html json = (Normal tt, s) ->
  name json <> name html
  /\ s = with_renderers [(name html, html); (name json, json)] (fresh html).
Proof.
  rewrite constructor_run.
  destruct (String.eqb_spec (name json) (name html)); [discriminate|].
  intros [= <-]. auto.
Qed.

(** A call leaves the map as it is or appends one entry under a new key. *)
Lemma exec_renderers c s :
  renderers (exec name c s) = renderers s
  \/ exists r, JsMap.get (name r) (renderers s) = None
               /\ renderers (exec name c s) = renderers s ++ [(name r, r)].
Proof.
  destruct c as [r|n|r|env project]; simpl.
  - rewrite addRenderer_run.
    destruct (JsMap.has (name r) (renderers s)) eqn:E; simpl; [now left|].
    right. exists r. apply has_false_get in E. split; [exact E|].
    now apply set_fresh.
  - now left.
  - rewrite setDefault_run. destruct (strict_eq _ r); now left.
  - rewrite render_run. now left.
Qed.

(** A call leaves the default as it is, or it is a [setDefault] of the
    instance stored under its name. *)
Lemma exec_defaultRenderer c s :
  defaultRenderer (exec name c s) = defaultRenderer s
  \/ JsMap.get (name (defaultRenderer (exec name c s))) (renderers s)
     = Some (defaultRenderer (exec name c s)).
Proof.
  destruct c as [r|n|r|env project]; simpl.
  - rewrite addRenderer_run.
    destruct (JsMap.has (name r) (renderers s)); now left.
  - now left.
  - rewrite setDefault_run.
    destruct (strict_eq _ r) eqn:E; [|now left].
    right. simpl. now apply strict_eq_true.
  - rewrite render_run. now left.
Qed.

Lemma get_app_Some {V} k (v : V) m1 m2 :
  JsMap.get k m1 = Some v -> JsMap.get k (m1 ++ m2) = Some v.
Proof.
  induction m1 as [|[k' v'] m1 IH]; simpl; [discriminate|].
  destruct (String.eqb k k'); auto.
Qed.

Lemma I2_exec c s : I2 name s -> I2 name (exec name c s).
Proof.
  unfold I2. intros H.
  destruct (exec_renderers c s) as [Hm|[r [_ Hm]]];
    destruct (exec_defaultRenderer c s) as [Hd|Hd]; rewrite Hm.
  - now rewrite Hd.
  - exact Hd.
  - rewrite Hd. now apply get_app_Some.
  - now apply get_app_Some.
Qed.

Lemma I2_constructor html json s :
  constructor name html json = (Normal tt, s) -> I2 name s.
Proof.
  intros H. apply constructor_ok in H as [_ ->].
  unfold I2; simpl. now rewrite String.eqb_refl.
Qed.

Lemma reachable_I2 s : reachable ProjectReflection name s -> I2 name s.
Proof.
  induction 1 as [html json s H|c s _ IH].
  - eapply I2_constructor; eauto.
  - now apply I2_exec.
Qed.

Lemma well_keyed_snoc m r :
  well_keyed name m -> JsMap.get (name r) m = None ->
  well_keyed name (m ++ [(name r, r)]).
Proof.
  intros [Hnd Hk] Hget. split.
  - rewrite keys_app. simpl. apply NoDup_snoc; [exact Hnd|].
    now apply get_None_keys.
  - intros k r' Hin. apply in_app_or in Hin as [Hin|[[= <- <-]|[]]]; auto.
Qed.

Lemma reachable_well_keyed s : reachable ProjectReflection name s -> well_keyed name (renderers s).
Proof.
  induction 1 as [html json s H|c s _ IH].
  - apply constructor_ok in H as [Hne ->]. simpl. split.
    + simpl. constructor; [simpl; intros [E|[]]; congruence|].
      constructor; [simpl; tauto | constructor].
    + intros k r [[= <- <-]|[[= <- <-]|[]]]; reflexivity.
  - destruct (exec_renderers c s) as [->|[r [Hget ->]]]; [exact IH|].
    now apply well_keyed_snoc.
Qed.

Lemma well_keyed_values m : well_keyed name m -> NoDup (JsMap.values m).
Proof.
  intros [Hnd Hk]. induction m as [|[k r] m IH]; simpl; [constructor|].
  inversion Hnd as [|? ? Hnotin Hnd']; subst.
  constructor.
  - intros Hin. apply in_map_iff in Hin as [[k' r'] [Hr Hin]].
    simpl in Hr; subst r'. apply Hnotin.
    assert (k' = name r) by (apply Hk; now right).
    assert (k = name r) by (apply Hk; now left).
    subst. change (In (fst (name r, r)) (map fst m)). now apply in_map.
  - apply IH; [exact Hnd'|]. intros k' r' Hin. apply Hk. now right.
Qed.

Lemma reachable_populated s : reachable ProjectReflection name s -> 2 <= List.length (renderers s).
Proof.
  induction 1 as [html json s H|c s _ IH].
  - apply constructor_ok in H as [_ ->]. simpl. lia.
  - destruct (exec_renderers c s) as [->|[r [_ ->]]]; [exact IH|].
    rewrite length_app. lia.
Qed.

Lemma I2_registered s : I2 name s -> registered s (defaultRenderer s).
Proof.
  unfold I2, registered. intros H. apply get_Some_In in H.
  change (In (snd (name (defaultRenderer s), defaultRenderer s))
             (map snd (renderers s))).
  now apply in_map.
Qed.
End Invariants.

(** ** The render pass *)

Section RenderPass.
Context {ProjectReflection : Type}.
Variable name : Renderer.t -> string.
Implicit Types (s : State) (r gen : Renderer.t) (n : string).
Implicit Types (env : Renderer.Env ProjectReflection).
Implicit Types (project : ProjectReflection).

Lemma eligible_spec env s r :
  In r (eligible env s)
  <-> registered s r /\ Renderer.isEnabled env r = true.
Proof. unfold eligible, registered. apply filter_In. Qed.

Lemma eligible_nil env s :
  eligible env s = []
  <-> forall r, registered s r -> Renderer.isEnabled env r = false.
Proof.
  split.
  - intros H r Hr. destruct (Renderer.isEnabled env r) eqn:E; [|reflexivity].
    assert (Hin : In r (eligible env s)) by now apply eligible_spec.
    rewrite H in Hin. destruct Hin.
  - intros H. destruct (eligible env s) as [|r l] eqn:E; [reflexivity|].
    assert (Hin : In r (eligible env s)) by (rewrite E; now left).
    apply eligible_spec in Hin as [Hr He]. rewrite (H r Hr) in He.
    discriminate.
Qed.

Lemma render_invoked env project s :
  invoked (snd (render env project s))
  = invoked s ++ attempted env project (selected env s).
Proof. rewrite render_run. reflexivity. Qed.

Lemma selected_nonempty env s : selected env s <> [].
Proof. unfold selected. destruct (eligible env s); discriminate. Qed.

Lemma selected_eligible env s :
  eligible env s <> [] -> selected env s = eligible env s.
Proof. unfold selected. destruct (eligible env s); congruence. Qed.

Lemma selected_default env s :
  eligible env s = [] -> selected env s = [defaultRenderer s].
Proof. unfold selected. now intros ->. Qed.

Lemma attempted_singleton env project gen :
  attempted env project [gen] = [gen].
Proof. simpl. destruct (Renderer.render env gen project); reflexivity. Qed.

Lemma reachable_selected_NoDup env s :
  reachable ProjectReflection name s -> NoDup (selected env s).
Proof.
  intros Hs. unfold selected. destruct (eligible env s) as [|x l] eqn:E.
  - constructor; [simpl; tauto | constructor].
  - rewrite <- E. unfold eligible. apply NoDup_filter.
    eapply well_keyed_values, reachable_well_keyed, Hs.
Qed.

(** C8: [render] leaves both fields of the container as they were: the
    same entries under the same names and the same default renderer. *)
Theorem C8_render_preserves_registry env project s :
  renderers (snd (render env project s)) = renderers s
  /\ defaultRenderer (snd (render env project s)) = defaultRenderer s.
Proof. rewrite render_run. simpl. split; reflexivity. Qed.

(** C10: in a reachable state a pass invokes no renderer twice; the
    default renderer is added only to an empty eligible list, and it is
    then invoked although its [isEnabled()] is false.  When the list is
    not empty the pass calls the eligible renderers in order, all of them
    unless one of the calls throws. *)
Theorem C10_render_invokes_each_at_most_once env project s :
  reachable ProjectReflection name s ->
  exists calls,
    invoked (snd (render env project s)) = invoked s ++ calls
    /\ NoDup calls
    /\ (forall r, count_occ Nat.eq_dec calls r <= 1)
    /\ (eligible env s <> [] ->
        (exists rest, eligible env s = calls ++ rest)
        /\ ((forall gen, In gen (eligible env s) ->
                         returns_promise env project gen) ->
            calls = eligible env s))
    /\ (eligible env s = [] ->
        calls = [defaultRenderer s]
        /\ Renderer.isEnabled env (defaultRenderer s) = false).
Proof.
  intros Hreach. rewrite render_invoked.
  eexists. split; [reflexivity|].
  assert (Hnd : NoDup (attempted env project (selected env s))).
  { destruct (attempted_prefix env project (selected env s)) as [rest Hp].
    pose proof (reachable_selected_NoDup env s Hreach) as H.
    rewrite Hp in H. now apply NoDup_app_remove_r in H. }
  split; [exact Hnd|]. split; [|split].
  - intros r. now apply NoDup_count_occ.
  - intros H. rewrite (selected_eligible env s H). split.
    + apply attempted_prefix.
    + intros Hret. apply attempted_all. now apply escaped_None.
  - intros H. rewrite (selected_default env s H), attempted_singleton.
    split; [reflexivity|].
    apply (proj1 (eligible_nil env s) H).
    apply (I2_registered name), (reachable_I2 name s Hreach).
Qed.
End RenderPass.

(** ** The registry *)

Section Registry.
Context {ProjectReflection : Type}.
Variable name : Renderer.t -> string.
Implicit Types (s : State) (r gen : Renderer.t) (n : string).
Implicit Types (c : Call ProjectReflection).

(** C3: [addRenderer(r)] under a name that is already a key throws the
    duplicate-name assertion and leaves the whole state as it was;
    under a new name it returns and files [r] under [r.name], after the
    entries already there, without touching the default renderer. *)
Theorem C3_addRenderer_duplicate_or_added r s :
  (JsMap.has (name r) (renderers s) = true ->
   addRenderer name r s = (Throw (DuplicateRendererName name r), s))
  /\ (JsMap.has (name r) (renderers s) = false ->
      exists s',
        addRenderer name r s = (Normal tt, s')
        /\ JsMap.get (name r) (renderers s') = Some r
        /\ renderers s' = renderers s ++ [(name r, r)]
        /\ defaultRenderer s' = defaultRenderer s).
Proof.
  rewrite addRenderer_run. split; intros H; rewrite H; [reflexivity|].
  eexists. split; [reflexivity|]. simpl.
  split; [apply get_set_same|]. split; [|reflexivity].
  apply set_fresh. now apply has_false_get.
Qed.

(** C4: [setDefault(r)] returns, with [r] as the new default and nothing
    else changed, exactly when the instance stored under [r.name] is [r]
    itself; in every other case, a different instance stored under that
    name included, it throws the assertion and the state, with the prior
    default, stays as it was. *)
Theorem C4_setDefault_identity_check r s :
  (JsMap.get (name r) (renderers s) = Some r ->
   exists s',
     setDefault name r s = (Normal tt, s')
     /\ defaultRenderer s' = r
     /\ renderers s' = renderers s
     /\ logged s' = logged s
     /\ invoked s' = invoked s)
  /\ (JsMap.get (name r) (renderers s) <> Some r ->
      setDefault name r s = (Throw UnregisteredDefault, s))
  /\ (forall r', r' <> r -> JsMap.get (name r) (renderers s) = Some r' ->
      setDefault name r s = (Throw UnregisteredDefault, s))
  /\ (fst (setDefault name r s) = Normal tt
      <-> JsMap.get (name r) (renderers s) = Some r).
Proof.
  rewrite setDefault_run.
  pose proof (strict_eq_true (JsMap.get (name r) (renderers s)) r) as Hs.
  destruct (strict_eq _ r) eqn:E.
  - assert (Hg : JsMap.get (name r) (renderers s) = Some r)
      by now apply Hs.
    split; [|split; [|split]].
    + intros _. eexists. split; [reflexivity|]. simpl. auto.
    + intros Hn. contradiction.
    + intros r' Hne Hr'. congruence.
    + split; auto.
  - assert (Hg : JsMap.get (name r) (renderers s) <> Some r).
    { intros Hg. apply Hs in Hg. discriminate. }
    split; [|split; [|split]].
    + intros Hc. contradiction.
    + reflexivity.
    + reflexivity.
    + simpl. split; [discriminate | intros Hc; contradiction].
Qed.

(** C5: I2 holds when the constructor returns, every call of a method
    keeps it, whether the call returns or throws, and so it holds in
    every reachable state. *)
Theorem C5_default_is_registered_instance :
  (forall html json s,
      constructor name html json = (Normal tt, s) -> I2 name s)
  /\ (forall c s, I2 name s -> I2 name (exec name c s))
  /\ (forall s, reachable ProjectReflection name s -> I2 name s).
Proof.
  split; [|split].
  - apply I2_constructor.
  - apply I2_exec.
  - apply reachable_I2.
Qed.

(** C6: with the built-ins named "html" and "json", the constructor
    returns a container holding exactly these two, under these names,
    with the html renderer as default; no call removes an entry, and a
    reachable container is never empty. *)
Theorem C6_constructor_seeds_builtins html json :
  name html = "html" -> name json = "json" ->
  constructor name html json
  = (Normal tt,
     {| defaultRenderer := html;
        renderers := [("html", html); ("json", json)];
        logged := []; invoked := [] |})
  /\ (forall c s k r,
         In (k, r) (renderers s) -> In (k, r) (renderers (exec name c s)))
  /\ (forall s, reachable ProjectReflection name s ->
                renderers s <> [] /\ 2 <= List.length (renderers s)).
Proof.
  intros Hh Hj. split; [|split].
  - rewrite constructor_run, Hh, Hj. reflexivity.
  - intros c s k r Hin.
    destruct (exec_renderers name c s) as [->|[r' [_ ->]]]; [exact Hin|].
    apply in_or_app. now left.
  - intros s Hs. pose proof (reachable_populated name s Hs) as Hlen.
    split; [|exact Hlen]. intros E. rewrite E in Hlen. simpl in Hlen. lia.
Qed.

(** C7: in a reachable state [getRenderer(n)] returns without throwing
    and without changing the state: the renderer filed under [n] when
    there is one, and [undefined] when [n] is not a key. *)
Theorem C7_getRenderer_total n s :
  reachable ProjectReflection name s ->
  exists found,
    getRenderer n s = (Normal found, s)
    /\ (forall r, In (n, r) (renderers s) -> found = Some r)
    /\ (forall r, found = Some r -> In (n, r) (renderers s))
    /\ (~ In n (JsMap.keys (renderers s)) -> found = None).
Proof.
  intros Hs. exists (JsMap.get n (renderers s)).
  split; [reflexivity|]. split; [|split].
  - intros r Hin. apply In_get; [|exact Hin].
    apply (reachable_well_keyed name s Hs).
  - intros r. apply get_Some_In.
  - apply get_None_keys.
Qed.

(** C9: after [addRenderer(r)] under a new name, [getRenderer(r.name)]
    returns [r] and [getRenderer] of any other name returns what it
    returned before. *)
Theorem C9_addRenderer_getRenderer_roundtrip r s :
  JsMap.has (name r) (renderers s) = false ->
  exists s',
    addRenderer name r s = (Normal tt, s')
    /\ getRenderer (name r) s' = (Normal (Some r), s')
    /\ (forall n, n <> name r ->
                  fst (getRenderer n s') = fst (getRenderer n s)).
Proof.
  intros H. rewrite addRenderer_run, H.
  eexists. split; [reflexivity|]. unfold getRenderer, gets; simpl.
  split.
  - now rewrite get_set_same.
  - intros n Hn. now rewrite get_set_other.
Qed.
End Registry.

(** ** The scenarios, run *)

(** Nothing enabled: only the default, "html", is rendered. *)
Example scenario_fallback :
  render Scenario.unconfigured tt Scenario.seeded
  = (Normal (Settled 1 Fulfilled),
     with_invoked [Scenario.html] Scenario.seeded).
Proof. reflexivity. Qed.

(** "markdown" enabled: it is rendered and the default is not. *)
Example scenario_markdown :
  render Scenario.markdown_only tt Scenario.extended
  = (Normal (Settled 1 Fulfilled),
     with_invoked [Scenario.markdown] Scenario.extended).
Proof. reflexivity. Qed.

(** Two of three reject with an error object: all three are invoked, the
    two messages are logged in the order of the failures, and the pass is
    fulfilled. *)
Example scenario_failures :
  render Scenario.all_enabled tt Scenario.extended
  = (Normal (Settled 7 Fulfilled),
     with_logged [Some "json: cannot serialize"; Some "html: disk full"]
       (with_invoked [Scenario.html; Scenario.json; Scenario.markdown]
          Scenario.extended)).
Proof. reflexivity. Qed.

(** A look-alike of "html" can neither be added nor made the default. *)
Example scenario_lookalike :
  addRenderer Scenario.name Scenario.lookalike Scenario.seeded
  = (Throw (DuplicateRendererName Scenario.name Scenario.lookalike),
     Scenario.seeded)
  /\ setDefault Scenario.name Scenario.lookalike Scenario.seeded
     = (Throw UnregisteredDefault, Scenario.seeded).
Proof. split; reflexivity. Qed.

(** C1: "html", "json" and "markdown" are registered and enabled, and the
    [render] of "json" throws instead of returning a promise: the pass
    calls "html" and "json" and never "markdown", so the renderers invoked
    are not the eligible ones. *)
Theorem C1_render_skips_after_throw :
  (forall r, In r [Scenario.html; Scenario.json; Scenario.markdown] ->
             registered Scenario.extended r
             /\ Renderer.isEnabled Scenario.json_throws r = true)
  /\ invoked (snd (render Scenario.json_throws tt Scenario.extended))
     = [Scenario.html; Scenario.json]
  /\ ~ In Scenario.markdown
          (invoked (snd (render Scenario.json_throws tt Scenario.extended))).
Proof.
  split; [|split].
  - intros r [<-|[<-|[<-|[]]]]; split; try reflexivity;
      unfold registered; simpl; auto.
  - reflexivity.
  - simpl. intros [H|[H|[]]]; discriminate.
Qed.

(** C2: three failures that are not isolated.  When the [render] of "json"
    throws, the promise of the pass is rejected with what was thrown,
    "markdown" is not invoked and nothing is logged.  When "json" rejects
    its promise with [null], the handler throws on reading the message:
    nothing is logged and the promise of the pass is rejected, before the
    other renderers have settled.  When "json" rejects with a string, the
    logger is handed [undefined]. *)
Theorem C2_render_rejects_on_failure :
  render Scenario.json_throws tt Scenario.extended
  = (Normal (Settled 0
               (Rejected (Obj (RenderError "json: cannot serialize")))),
     with_invoked [Scenario.html; Scenario.json] Scenario.extended)
  /\ render Scenario.json_rejects_null tt Scenario.extended
     = (Normal (Settled 2 (Rejected null_read)),
        with_invoked [Scenario.html; Scenario.json; Scenario.markdown]
          Scenario.extended)
  /\ render Scenario.json_rejects_string tt Scenario.extended
     = (Normal (Settled 5 Fulfilled),
        with_logged [None]
          (with_invoked [Scenario.html; Scenario.json; Scenario.markdown]
             Scenario.extended)).
Proof. repeat split. Qed.

Lemma C3_addRenderer_duplicate_or_added_witness :
  addRenderer Scenario.name Scenario.lookalike Scenario.seeded
  = (Throw (DuplicateRendererName Scenario.name Scenario.lookalike),
     Scenario.seeded)
  /\ exists s',
      addRenderer Scenario.name Scenario.markdown Scenario.seeded
      = (Normal tt, s')
      /\ JsMap.get "markdown" (renderers s') = Some Scenario.markdown.
Proof.
  split.
  - apply (C3_addRenderer_duplicate_or_added
             Scenario.name Scenario.lookalike Scenario.seeded).
    reflexivity.
  - destruct (proj2 (C3_addRenderer_duplicate_or_added
                       Scenario.name Scenario.markdown Scenario.seeded)
                    eq_refl)
      as [s' [Hrun [Hget _]]].
    exists s'. split; assumption.
Defined.

Lemma C4_setDefault_identity_check_witness :
  (exists s',
      setDefault Scenario.name Scenario.json Scenario.seeded
      = (Normal tt, s')
      /\ defaultRenderer s' = Scenario.json
      /\ renderers s' = renderers Scenario.seeded)
  /\ setDefault Scenario.name Scenario.lookalike Scenario.seeded
     = (Throw UnregisteredDefault, Scenario.seeded).
Proof.
  split.
  - destruct (proj1 (C4_setDefault_identity_check
                       Scenario.name Scenario.json Scenario.seeded)
                    eq_refl)
      as [s' [Hrun [Hd [Hm _]]]].
    exists s'. repeat split; assumption.
  - apply (proj1 (proj2 (proj2 (C4_setDefault_identity_check
             Scenario.name Scenario.lookalike Scenario.seeded)))
             Scenario.html).
    + discriminate.
    + reflexivity.
Defined.

Lemma C5_default_is_registered_instance_witness :
  I2 Scenario.name Scenario.seeded
  /\ I2 Scenario.name
        (exec Scenario.name (@CallSetDefault unit Scenario.json)
              Scenario.seeded).
Proof.
  destruct (@C5_default_is_registered_instance unit Scenario.name)
    as [Hnew [Hcall _]].
  assert (H : I2 Scenario.name Scenario.seeded).
  { apply (Hnew Scenario.html Scenario.json). reflexivity. }
  split; [exact H|]. apply Hcall, H.
Defined.

Lemma C6_constructor_seeds_builtins_witness :
  Scenario.name Scenario.html = "html"
  /\ Scenario.name Scenario.json = "json"
  /\ constructor Scenario.name Scenario.html Scenario.json
     = (Normal tt,
        {| defaultRenderer := Scenario.html;
           renderers := [("html", Scenario.html); ("json", Scenario.json)];
           logged := []; invoked := [] |}).
Proof.
  split; [reflexivity|]. split; [reflexivity|].
  apply (@C6_constructor_seeds_builtins unit Scenario.name
           Scenario.html Scenario.json); reflexivity.
Defined.

Lemma C7_getRenderer_total_witness :
  reachable unit Scenario.name Scenario.seeded
  /\ getRenderer "json" Scenario.seeded
     = (Normal (Some Scenario.json), Scenario.seeded)
  /\ getRenderer "markdown" Scenario.seeded
     = (Normal None, Scenario.seeded).
Proof.
  assert (Hs : reachable unit Scenario.name Scenario.seeded).
  { apply (reachable_new unit Scenario.name Scenario.html Scenario.json).
    reflexivity. }
  split; [exact Hs|]. split.
  - destruct (C7_getRenderer_total Scenario.name "json" Scenario.seeded Hs)
      as [found [Hrun [Hin _]]].
    rewrite Hrun. rewrite (Hin Scenario.json); [reflexivity|].
    simpl. auto.
  - destruct (C7_getRenderer_total Scenario.name "markdown" Scenario.seeded Hs)
      as [found [Hrun [_ [_ Hout]]]].
    rewrite Hrun, Hout; [reflexivity|].
    simpl. intros [H|[H|[]]]; discriminate.
Defined.

Lemma C9_addRenderer_getRenderer_roundtrip_witness :
  JsMap.has (Scenario.name Scenario.markdown) (renderers Scenario.seeded)
  = false
  /\ exists s',
      addRenderer Scenario.name Scenario.markdown Scenario.seeded
      = (Normal tt, s')
      /\ getRenderer (Scenario.name Scenario.markdown) s'
         = (Normal (Some Scenario.markdown), s')
      /\ (forall n, n <> Scenario.name Scenario.markdown ->
                    fst (getRenderer n s')
                    = fst (getRenderer n Scenario.seeded)).
Proof.
  split; [reflexivity|].
  apply (C9_addRenderer_getRenderer_roundtrip Scenario.name
           Scenario.markdown Scenario.seeded).
  reflexivity.
Defined.

Lemma C10_render_invokes_each_at_most_once_witness :
  reachable unit Scenario.name Scenario.extended
  /\ exists calls,
      invoked (snd (render Scenario.all_enabled tt Scenario.extended))
      = invoked Scenario.extended ++ calls
      /\ NoDup calls.
Proof.
  assert (Hs : reachable unit Scenario.name Scenario.extended).
  { change Scenario.extended
      with (exec Scenario.name
              (@CallAddRenderer unit Scenario.markdown) Scenario.seeded).
    apply reachable_call.
    apply (reachable_new unit Scenario.name Scenario.html Scenario.json).
    reflexivity. }
  split; [exact Hs|].
  destruct (C10_render_invokes_each_at_most_once Scenario.name
              Scenario.all_enabled tt Scenario.extended Hs)
    as [calls [Hcalls [Hnd _]]].
  exists calls. split; assumption.
Defined.

(** * Further properties of the container *)

(** ** What holds along any sequence of calls *)

Section Histories.
Context {ProjectReflection : Type}.
Variable name : Renderer.t -> string.
Implicit Types (s : State) (r gen : Renderer.t) (n : string).
Implicit Types (c : Call ProjectReflection) (cs : list (Call ProjectReflection)).

Lemma exec_get_Some c s n r :
  JsMap.get n (renderers s) = Some r ->
  JsMap.get n (renderers (exec name c s)) = Some r.
Proof.
  intros H. destruct (exec_renderers name c s) as [->|[r' [_ ->]]].
  - exact H.
  - now apply get_app_Some.
Qed.

Lemma run_get_Some cs s n r :
  JsMap.get n (renderers s) = Some r ->
  JsMap.get n (renderers (run name cs s)) = Some r.
Proof.
  revert s. induction cs as [|c cs IH]; intros s H; simpl; [exact H|].
  apply IH. now apply exec_get_Some.
Qed.

Lemma reachable_run cs s :
  reachable ProjectReflection name s ->
  reachable ProjectReflection name (run name cs s).
Proof.
  revert s. induction cs as [|c cs IH]; intros s H; simpl; [exact H|].
  apply IH. now apply reachable_call.
Qed.

Lemma well_keyed_registered m r :
  well_keyed name m ->
  In r (JsMap.values m) <-> JsMap.get (name r) m = Some r.
Proof.
  intros [Hnd Hk]. split.
  - intros Hin. apply in_map_iff in Hin as [[k r'] [Hr Hin]].
    simpl in Hr; subst r'. apply In_get; [exact Hnd|].
    now rewrite <- (Hk k r Hin).
  - intros Hget. apply get_Some_In in Hget.
    change (In (snd (name r, r)) (map snd m)). now apply in_map.
Qed.

(** X1: in a reachable container two registered renderers with the same
    name are one and the same instance. *)
Theorem registered_names_unique s r1 r2 :
  reachable ProjectReflection name s ->
  registered s r1 -> registered s r2 -> name r1 = name r2 -> r1 = r2.
Proof.
  intros Hs H1 H2 Hn. pose proof (reachable_well_keyed name s Hs) as Hwk.
  apply (well_keyed_registered _ _ Hwk) in H1.
  apply (well_keyed_registered _ _ Hwk) in H2.
  rewrite Hn in H1. congruence.
Qed.

(** X2: in a reachable container [getRenderer(n)] returns a renderer
    exactly when that renderer is registered and [n] is its name. *)
Theorem getRenderer_iff_registered s n r :
  reachable ProjectReflection name s ->
  fst (getRenderer n s) = Normal (Some r)
  <-> registered s r /\ name r = n.
Proof.
  intros Hs. pose proof (reachable_well_keyed name s Hs) as Hwk.
  unfold getRenderer, gets; simpl. split.
  - intros [= Hget]. pose proof (get_Some_In _ _ _ Hget) as Hin.
    assert (Hn : n = name r) by (apply (proj2 Hwk); exact Hin).
    subst n. split; [|reflexivity].
    now apply (well_keyed_registered _ _ Hwk).
  - intros [Hr <-]. f_equal. now apply (well_keyed_registered _ _ Hwk).
Qed.

(** X3: in a reachable container [setDefault(r)] returns normally exactly
    when [r] has been added to the container. *)
Theorem setDefault_iff_registered s r :
  reachable ProjectReflection name s ->
  fst (setDefault name r s) = Normal tt <-> registered s r.
Proof.
  intros Hs. pose proof (reachable_well_keyed name s Hs) as Hwk.
  rewrite setDefault_run.
  pose proof (strict_eq_true (JsMap.get (name r) (renderers s)) r) as Hse.
  unfold registered. rewrite (well_keyed_registered _ _ Hwk).
  destruct (strict_eq _ r); simpl.
  - split; [intros _; now apply Hse | reflexivity].
  - split; [discriminate|]. intros H. apply Hse in H. discriminate.
Qed.

(** X4: in a reachable container, setting the current default renderer as
    the default again returns normally and changes nothing. *)
Theorem setDefault_current s :
  reachable ProjectReflection name s ->
  setDefault name (defaultRenderer s) s = (Normal tt, s).
Proof.
  intros Hs. pose proof (reachable_I2 name s Hs) as H. unfold I2 in H.
  rewrite setDefault_run, H. simpl. unfold Renderer.same.
  rewrite Nat.eqb_refl. destruct s; reflexivity.
Qed.

(** X5: an entry is permanent: once [n] maps to [r], it still does after
    any sequence of calls, and every later [addRenderer] of a renderer
    named [n] throws and leaves the state it found. *)
Theorem entry_permanent s n r cs :
  JsMap.get n (renderers s) = Some r ->
  fst (getRenderer n (run name cs s)) = Normal (Some r)
  /\ forall r', name r' = n ->
       addRenderer name r' (run name cs s)
       = (Throw (DuplicateRendererName name r'), run name cs s).
Proof.
  intros H. pose proof (run_get_Some cs s n r H) as Hget. split.
  - unfold getRenderer, gets; simpl. now rewrite Hget.
  - intros r' <-. rewrite addRenderer_run. unfold JsMap.has.
    now rewrite Hget.
Qed.

(** X6: whatever is called after the constructor has returned, looking up
    the name of either built-in returns the instance the constructor
    created: the built-ins are never replaced. *)
Theorem builtins_permanent html json s cs :
  constructor name html json = (Normal tt, s) ->
  fst (getRenderer (name html) (run name cs s)) = Normal (Some html)
  /\ fst (getRenderer (name json) (run name cs s)) = Normal (Some json).
Proof.
  intros H. apply constructor_ok in H as [Hne ->].
  unfold getRenderer, gets; simpl. split; f_equal; apply run_get_Some; simpl.
  - now rewrite String.eqb_refl.
  - destruct (String.eqb_spec (name json) (name html)); [contradiction|].
    now rewrite String.eqb_refl.
Qed.

(** X7: the constructor returns normally exactly when the two built-ins
    have different names; otherwise it throws the duplicate-name
    assertion for the second one. *)
Theorem constructor_needs_distinct_names html json :
  (name json <> name html ->
   exists s, constructor name html json = (Normal tt, s))
  /\ (name json = name html ->
      fst (constructor name html json)
      = Throw (DuplicateRendererName name json)).
Proof.
  rewrite constructor_run.
  destruct (String.eqb_spec (name json) (name html)) as [E|E]; split;
    intros H; try contradiction; eauto.
Qed.
End Histories.

(** ** How registration and the default show in a render pass *)

Section Dispatch.
Context {ProjectReflection : Type}.
Variable name : Renderer.t -> string.
Implicit Types (s : State) (r gen : Renderer.t) (n : string).
Implicit Types (env : Renderer.Env ProjectReflection).
Implicit Types (project : ProjectReflection).

Lemma render_promise env project s :
  fst (render env project s)
  = Normal match escaped env project (selected env s) with
           | Some v => Settled 0 (Rejected v)
           | None =>
               Promise_all
                 (rethrown
                    (sort_by_tick
                       (rejections (started env project (selected env s)))))
                 (started env project (selected env s))
           end.
Proof. rewrite render_run. reflexivity. Qed.

Lemma render_logged env project s :
  logged (snd (render env project s))
  = logged s
    ++ reported (sort_by_tick
                   (rejections (started env project (selected env s)))).
Proof. rewrite render_run. reflexivity. Qed.

Lemma eligible_snoc env s k r :
  eligible env (with_renderers (renderers s ++ [(k, r)]) s)
  = eligible env s ++ (if Renderer.isEnabled env r then [r] else []).
Proof.
  unfold eligible. simpl. rewrite values_app, filter_app. simpl.
  destruct (Renderer.isEnabled env r); reflexivity.
Qed.

Lemma attempted_app env project l l' :
  (forall gen, In gen l -> returns_promise env project gen) ->
  attempted env project (l ++ l') = l ++ attempted env project l'.
Proof.
  induction l as [|gen l IH]; intros H; simpl; [reflexivity|].
  destruct (H gen (or_introl eq_refl)) as [p ->].
  rewrite IH; [reflexivity|]. intros g Hg. apply H. now right.
Qed.

Lemma attempted_incl env project gens gen :
  In gen (attempted env project gens) -> In gen gens.
Proof.
  intros H. destruct (attempted_prefix env project gens) as [rest Hp].
  rewrite Hp. apply in_or_app. now left.
Qed.

(** No nullish rejection among the promises of orderly renderers. *)
Lemma orderly_rethrown env project gens :
  (forall gen, In gen gens -> orderly env project gen) ->
  rethrown (sort_by_tick (rejections (started env project gens))) = [].
Proof.
  intros H.
  assert (Hesc : escaped env project gens = None).
  { apply escaped_None. intros gen Hin. apply (H gen Hin). }
  apply (rethrown_perm (rejections (started env project gens)));
    [symmetry; apply sort_by_tick_perm|].
  apply rethrown_nil. intros t v Hin.
  apply rejections_In in Hin.
  apply (started_In env project gens _ Hesc) in Hin as [gen [Hgen Hp]].
  destruct (H gen Hgen) as [_ [Hn Hu]]. unfold failure in Hn, Hu.
  rewrite Hp in Hn, Hu. split; congruence.
Qed.

Lemma forallb_is_settled_false ps :
  forallb is_settled ps = false <-> In Pending ps.
Proof.
  induction ps as [|p ps IH]; simpl.
  - split; [discriminate | tauto].
  - destruct p as [|t o]; simpl.
    + split; auto.
    + rewrite IH. split; [auto | intros [H|H]; [discriminate | exact H]].
Qed.

Lemma max_tick_bound ps p :
  In p ps -> tick_of p <= fold_right Nat.max 0 (map tick_of ps).
Proof.
  induction ps as [|q ps IH]; simpl; [tauto|].
  intros [->|H]; [lia|]. specialize (IH H). lia.
Qed.

Lemma max_tick_attained ps :
  ps <> [] ->
  exists p, In p ps /\ tick_of p = fold_right Nat.max 0 (map tick_of ps).
Proof.
  induction ps as [|q ps IH]; [congruence|]. intros _.
  destruct ps as [|q' ps'].
  - exists q. split; [now left | simpl; lia].
  - destruct IH as [p [Hin Hp]]; [discriminate|].
    set (m := fold_right Nat.max 0 (map tick_of (q' :: ps'))) in *.
    change (fold_right Nat.max 0 (map tick_of (q :: q' :: ps')))
      with (Nat.max (tick_of q) m).
    destruct (Nat.le_ge_cases (tick_of q) m) as [H|H].
    + exists p. split; [now right | lia].
    + exists q. split; [now left | lia].
Qed.

(** X8: a renderer added under a new name is dispatched after the ones
    registered before it: if it is enabled, and the calls of the earlier
    enabled renderers return, the next pass invokes those and then it, with
    no fallback to the default; if it is disabled the pass invokes what it
    would have invoked without it. *)
Theorem addRenderer_then_render env project r s :
  JsMap.has (name r) (renderers s) = false ->
  exists s',
    addRenderer name r s = (Normal tt, s')
    /\ (Renderer.isEnabled env r = true ->
        (forall gen, In gen (eligible env s) ->
                     returns_promise env project gen) ->
        invoked (snd (render env project s'))
        = invoked s ++ eligible env s ++ [r])
    /\ (Renderer.isEnabled env r = false ->
        forall calls,
          invoked (snd (render env project s)) = invoked s ++ calls ->
          invoked (snd (render env project s')) = invoked s ++ calls).
Proof.
  intros Hnew. rewrite addRenderer_run, Hnew.
  eexists. split; [reflexivity|].
  apply has_false_get in Hnew. rewrite (set_fresh _ _ _ Hnew).
  split.
  - intros He Hret. rewrite render_invoked. unfold selected.
    rewrite eligible_snoc, He. simpl.
    assert (E : match eligible env s ++ [r] with
                | [] => [defaultRenderer s]
                | _ :: _ => eligible env s ++ [r]
                end = eligible env s ++ [r])
      by (destruct (eligible env s); reflexivity).
    rewrite E, (attempted_app env project _ _ Hret), attempted_singleton.
    reflexivity.
  - intros He calls Hcalls. rewrite render_invoked in Hcalls.
    apply app_inv_head in Hcalls. subst calls.
    rewrite render_invoked. unfold selected.
    rewrite eligible_snoc, He, app_nil_r. reflexivity.
Qed.

(** X9: after [setDefault(r)] has returned, a pass in which no renderer
    is enabled invokes [r] and nothing else, whether or not [r] is
    enabled; a pass in which some renderer is enabled invokes what it would
    have invoked before the change of default. *)
Theorem setDefault_then_render env project r s :
  JsMap.get (name r) (renderers s) = Some r ->
  exists s',
    setDefault name r s = (Normal tt, s')
    /\ (eligible env s = [] ->
        invoked (snd (render env project s')) = invoked s ++ [r])
    /\ (eligible env s <> [] ->
        forall calls,
          invoked (snd (render env project s)) = invoked s ++ calls ->
          invoked (snd (render env project s')) = invoked s ++ calls).
Proof.
  intros Hget. rewrite setDefault_run.
  assert (E : strict_eq (JsMap.get (name r) (renderers s)) r = true)
    by now apply strict_eq_true.
  rewrite E. eexists. split; [reflexivity|].
  assert (He : eligible env (with_defaultRenderer r s) = eligible env s)
    by reflexivity.
  split.
  - intros H. rewrite render_invoked, selected_default by now rewrite He.
    now rewrite attempted_singleton.
  - intros H calls Hcalls. rewrite render_invoked in Hcalls.
    apply app_inv_head in Hcalls. subst calls.
    rewrite render_invoked.
    rewrite (selected_eligible env (with_defaultRenderer r s))
      by now rewrite He.
    now rewrite He, (selected_eligible env s H).
Qed.

(** X10: a pass over a reachable container invokes at least one renderer,
    and every renderer it invokes, the fallback included, is registered. *)
Theorem render_invokes_registered_nonempty env project s :
  reachable ProjectReflection name s ->
  exists calls,
    invoked (snd (render env project s)) = invoked s ++ calls
    /\ calls <> []
    /\ forall gen, In gen calls -> registered s gen.
Proof.
  intros Hs. rewrite render_invoked. eexists. split; [reflexivity|].
  split; [apply attempted_nonempty, selected_nonempty|].
  intros gen Hin. apply attempted_incl in Hin. unfold selected in Hin.
  destruct (eligible env s) as [|x l] eqn:E.
  - destruct Hin as [<-|[]].
    apply (I2_registered name), (reachable_I2 name s Hs).
  - rewrite <- E in Hin. unfold eligible in Hin.
    apply filter_In in Hin. apply Hin.
Qed.


(** X12: [render] is a join: when its promise is fulfilled at tick [t],
    every renderer the pass invoked has settled, none later than [t], and
    one of them settled at [t]. *)
Theorem render_joins env project s t :
  fst (render env project s) = Normal (Settled t Fulfilled) ->
  exists calls,
    invoked (snd (render env project s)) = invoked s ++ calls
    /\ (forall gen, In gen calls ->
          exists t' o,
            Renderer.render env gen project = Normal (Settled t' o)
            /\ t' <= t)
    /\ (exists gen o,
           In gen calls
           /\ Renderer.render env gen project = Normal (Settled t o)).
Proof.
  rewrite render_invoked, render_promise. intros H.
  eexists. split; [reflexivity|].
  destruct (escaped env project (selected env s)) eqn:Hesc; [discriminate|].
  rewrite (attempted_all env project _ Hesc).
  set (ps := started env project (selected env s)) in *.
  injection H as H. unfold Promise_all in H.
  destruct (rethrown _) as [|[t0 e] thrown]; [|discriminate].
  destruct (forallb is_settled ps) eqn:E; [|discriminate].
  injection H as Ht.
  assert (Hall : forall p, In p ps -> is_settled p = true)
    by now apply forallb_forall.
  split.
  - intros gen Hin.
    destruct (proj1 (escaped_None env project _) Hesc gen Hin) as [p Hp].
    assert (Hps : In p ps)
      by (apply (started_In env project _ _ Hesc); eauto).
    pose proof (Hall _ Hps) as Hset. pose proof (max_tick_bound ps _ Hps) as Hb.
    rewrite Hp. destruct p as [|t' o]; [discriminate|].
    exists t', o. split; [reflexivity|]. simpl in Hb. lia.
  - assert (Hne : ps <> []).
    { intros Hnil.
      pose proof (started_all env project _ Hesc) as Hmap. fold ps in Hmap.
      rewrite Hnil in Hmap. simpl in Hmap. symmetry in Hmap.
      apply map_eq_nil in Hmap. now apply (selected_nonempty env s). }
    destruct (max_tick_attained ps Hne) as [p [Hp Htick]].
    pose proof (Hall _ Hp) as Hset.
    apply (started_In env project _ _ Hesc) in Hp as [gen [Hin Hgen]].
    exists gen. destruct p as [|t' o]; [discriminate|].
    exists o. split; [exact Hin|]. rewrite Hgen. simpl in Htick.
    do 2 f_equal. lia.
Qed.

(** X13: when the calls of the eligible renderers return, a pass invokes
    exactly the registered renderers whose [isEnabled()] is true; when no
    registered renderer is enabled it invokes the default renderer, once,
    and nothing else. *)
Theorem render_invokes_selected env project s :
  (forall gen, In gen (eligible env s) -> returns_promise env project gen) ->
  exists calls,
    invoked (snd (render env project s)) = invoked s ++ calls
    /\ ((exists r, registered s r /\ Renderer.isEnabled env r = true) ->
        forall r, In r calls
                  <-> registered s r /\ Renderer.isEnabled env r = true)
    /\ ((forall r, registered s r -> Renderer.isEnabled env r = false) ->
        calls = [defaultRenderer s]).
Proof.
  intros Hret. rewrite render_invoked. eexists. split; [reflexivity|].
  split.
  - intros [r0 H0] r. apply eligible_spec in H0.
    assert (Hne : eligible env s <> [])
      by (intros E; rewrite E in H0; destruct H0).
    rewrite (selected_eligible env s Hne).
    rewrite (attempted_all env project (eligible env s))
      by now apply escaped_None.
    apply eligible_spec.
  - intros H. apply eligible_nil in H.
    now rewrite (selected_default env s H), attempted_singleton.
Qed.

End Dispatch.
(** ** The further properties on the scenario *)

Ltac seeded_is_reachable :=
  apply (reachable_new unit Scenario.name Scenario.html Scenario.json);
  reflexivity.

Lemma registered_names_unique_witness :
  reachable unit Scenario.name Scenario.seeded
  /\ registered Scenario.seeded Scenario.json
  /\ Scenario.name Scenario.json = Scenario.name Scenario.json
  /\ Scenario.json = Scenario.json.
Proof.
  assert (Hs : reachable unit Scenario.name Scenario.seeded)
    by seeded_is_reachable.
  assert (Hr : registered Scenario.seeded Scenario.json)
    by (unfold registered; simpl; auto).
  split; [exact Hs|]. split; [exact Hr|]. split; [reflexivity|].
  apply (registered_names_unique Scenario.name Scenario.seeded
           Scenario.json Scenario.json Hs Hr Hr eq_refl).
Defined.

Lemma getRenderer_iff_registered_witness :
  reachable unit Scenario.name Scenario.seeded
  /\ fst (getRenderer "json" Scenario.seeded) = Normal (Some Scenario.json).
Proof.
  assert (Hs : reachable unit Scenario.name Scenario.seeded)
    by seeded_is_reachable.
  split; [exact Hs|].
  apply (getRenderer_iff_registered Scenario.name Scenario.seeded
           "json" Scenario.json Hs).
  split; [|reflexivity]. unfold registered; simpl; auto.
Defined.

Lemma setDefault_iff_registered_witness :
  reachable unit Scenario.name Scenario.seeded
  /\ fst (setDefault Scenario.name Scenario.json Scenario.seeded) = Normal tt
  /\ ~ registered Scenario.seeded Scenario.lookalike.
Proof.
  assert (Hs : reachable unit Scenario.name Scenario.seeded)
    by seeded_is_reachable.
  split; [exact Hs|]. split.
  - apply (setDefault_iff_registered Scenario.name Scenario.seeded
             Scenario.json Hs).
    unfold registered; simpl; auto.
  - intros Hr.
    apply (setDefault_iff_registered Scenario.name Scenario.seeded
             Scenario.lookalike Hs) in Hr.
    discriminate.
Defined.

Lemma setDefault_current_witness :
  reachable unit Scenario.name Scenario.seeded
  /\ setDefault Scenario.name Scenario.html Scenario.seeded
     = (Normal tt, Scenario.seeded).
Proof.
  assert (Hs : reachable unit Scenario.name Scenario.seeded)
    by seeded_is_reachable.
  split; [exact Hs|].
  apply (setDefault_current Scenario.name Scenario.seeded Hs).
Defined.

Lemma entry_permanent_witness :
  JsMap.get "html" (renderers Scenario.seeded) = Some Scenario.html
  /\ fst (getRenderer "html"
            (run Scenario.name
                 [@CallAddRenderer unit Scenario.lookalike;
                  CallAddRenderer Scenario.markdown;
                  CallSetDefault Scenario.json]
                 Scenario.seeded))
     = Normal (Some Scenario.html).
Proof.
  split; [reflexivity|].
  apply (entry_permanent Scenario.name Scenario.seeded "html" Scenario.html).
  reflexivity.
Defined.

Lemma builtins_permanent_witness :
  constructor Scenario.name Scenario.html Scenario.json
  = (Normal tt, Scenario.seeded)
  /\ fst (getRenderer "json"
            (run Scenario.name
                 [@CallAddRenderer unit Scenario.markdown;
                  CallRender Scenario.all_enabled tt]
                 Scenario.seeded))
     = Normal (Some Scenario.json).
Proof.
  split; [reflexivity|].
  apply (builtins_permanent Scenario.name Scenario.html Scenario.json
           Scenario.seeded).
  reflexivity.
Defined.

Lemma addRenderer_then_render_witness :
  JsMap.has (Scenario.name Scenario.markdown) (renderers Scenario.seeded)
  = false
  /\ exists s',
      addRenderer Scenario.name Scenario.markdown Scenario.seeded
      = (Normal tt, s')
      /\ invoked (snd (render Scenario.all_enabled tt s'))
         = [Scenario.html; Scenario.json; Scenario.markdown].
Proof.
  split; [reflexivity|].
  destruct (addRenderer_then_render Scenario.name Scenario.all_enabled tt
              Scenario.markdown Scenario.seeded eq_refl)
    as [s' [Hrun [Hon _]]].
  exists s'. split; [exact Hrun|]. apply Hon; [reflexivity|].
  intros gen [<-|[<-|[]]]; eexists; reflexivity.
Defined.

Lemma setDefault_then_render_witness :
  JsMap.get (Scenario.name Scenario.json) (renderers Scenario.seeded)
  = Some Scenario.json
  /\ exists s',
      setDefault Scenario.name Scenario.json Scenario.seeded
      = (Normal tt, s')
      /\ invoked (snd (render Scenario.unconfigured tt s'))
         = [Scenario.json].
Proof.
  split; [reflexivity|].
  destruct (setDefault_then_render Scenario.name Scenario.unconfigured tt
              Scenario.json Scenario.seeded eq_refl)
    as [s' [Hrun [Hnone _]]].
  exists s'. split; [exact Hrun|]. apply Hnone. reflexivity.
Defined.

Lemma render_invokes_registered_nonempty_witness :
  reachable unit Scenario.name Scenario.seeded
  /\ exists calls,
      invoked (snd (render Scenario.unconfigured tt Scenario.seeded))
      = invoked Scenario.seeded ++ calls
      /\ calls <> [].
Proof.
  assert (Hs : reachable unit Scenario.name Scenario.seeded)
    by seeded_is_reachable.
  split; [exact Hs|].
  destruct (render_invokes_registered_nonempty Scenario.name
              Scenario.unconfigured tt Scenario.seeded Hs)
    as [calls [Hinv [Hne _]]].
  exists calls. split; assumption.
Defined.

Lemma render_joins_witness :
  fst (render Scenario.all_enabled tt Scenario.extended)
  = Normal (Settled 7 Fulfilled)
  /\ exists calls,
      invoked (snd (render Scenario.all_enabled tt Scenario.extended))
      = invoked Scenario.extended ++ calls
      /\ exists gen o,
          In gen calls
          /\ Renderer.render Scenario.all_enabled gen tt
             = Normal (Settled 7 o).
Proof.
  split; [reflexivity|].
  destruct (render_joins Scenario.all_enabled tt Scenario.extended 7 eq_refl)
    as [calls [Hinv [_ Hlast]]].
  exists calls. split; assumption.
Defined.


Lemma render_invokes_selected_witness :
  (forall gen, In gen (eligible Scenario.all_enabled Scenario.extended) ->
               returns_promise Scenario.all_enabled tt gen)
  /\ exists calls,
      invoked (snd (render Scenario.all_enabled tt Scenario.extended))
      = invoked Scenario.extended ++ calls
      /\ (In Scenario.html calls /\ In Scenario.json calls
          /\ In Scenario.markdown calls).
Proof.
  assert (Hret : forall gen,
             In gen (eligible Scenario.all_enabled Scenario.extended) ->
             returns_promise Scenario.all_enabled tt gen).
  { intros gen [<-|[<-|[<-|[]]]]; eexists; reflexivity. }
  split; [exact Hret|].
  destruct (render_invokes_selected Scenario.all_enabled tt
              Scenario.extended Hret)
    as [calls [Hinv [Hsome _]]].
  exists calls. split; [exact Hinv|].
  assert (Hex : exists r, registered Scenario.extended r
                          /\ Renderer.isEnabled Scenario.all_enabled r = true).
  { exists Scenario.html. split; [|reflexivity].
    unfold registered. simpl. auto. }
  repeat split; apply (Hsome Hex); split; try reflexivity;
    unfold registered; simpl; auto.
Defined.

